(** * Bayesian regression notebook (class-notebook.ipynb)

    A shallow embedding of the notebook's cells: the data-loading cell
    ([dropna], [astype(float)], [pop("score")], [shape]) and the three
    model cells ([basic_model], [simple_model], [multi_model]), each a
    [with pm.Model()] block that registers named random variables.

    Conventions.
    - float64 values are idealised as rationals [Q]; a missing value (NaN)
      of the source table is [None].  Rounding is not modelled.
    - A data frame is kept row by row, under its column labels; the row
      index labels of pandas play no role in the notebook and are left out.
    - Exceptions are values of [error]; a cell that can raise returns a
      [result]. *)

From Stdlib Require Import String Bool Arith ZArith QArith Lia List.
Import ListNotations.

Open Scope string_scope.
Open Scope nat_scope.
Open Scope list_scope.

(** ** Exceptions *)

Inductive error : Type :=
| KeyError (key : string)
| ShapeError (left right : list nat)
| NameError (name : string)
| ValueError (msg : string)
| NotModelled.

Inductive result (A : Type) : Type :=
| Ok (a : A)
| Raise (e : error).

Arguments Ok {A} a.
Arguments Raise {A} e.

Definition rbind {A B} (r : result A) (k : A -> result B) : result B :=
  match r with
  | Ok a => k a
  | Raise e => Raise e
  end.

Notation "x <- r ;; k" := (rbind r (fun x => k))
  (at level 61, r at next level, right associativity).
Notation "' p <- r ;; k" := (rbind r (fun x => match x with p => k end))
  (at level 61, p pattern, r at next level, right associativity).

(** ** pandas: the fragment used by the loading cell *)

(** A cell of the table as read from the CSV file.  The course table is
    numeric throughout; text cells are outside the model. *)
Inductive num : Type :=
| IntV (z : Z)
| FloatV (q : Q).

Definition cell : Type := option num.

Record DataFrame (A : Type) : Type := {
  columns : list string;
  rows : list (list A)
}.

Arguments columns {A} d.
Arguments rows {A} d.

(** pandas frames are rectangular. *)
Definition rectangular {A} (df : DataFrame A) : Prop :=
  Forall (fun r => length r = length (columns df)) (rows df).

(** [df.shape] *)
Definition shape {A} (df : DataFrame A) : nat * nat :=
  (length (rows df), length (columns df)).

(** [notna] on one cell. *)
Definition present (c : cell) : bool :=
  match c with
  | Some _ => true
  | None => false
  end.

(** A row survives [dropna] when none of its cells is missing. *)
Fixpoint notna (r : list cell) : option (list num) :=
  match r with
  | [] => Some []
  | None :: _ => None
  | Some v :: r' =>
      match notna r' with
      | Some vs => Some (v :: vs)
      | None => None
      end
  end.

Fixpoint dropna_rows (rs : list (list cell)) : list (list num) :=
  match rs with
  | [] => []
  | r :: rs' =>
      match notna r with
      | Some vs => vs :: dropna_rows rs'
      | None => dropna_rows rs'
      end
  end.

(** [df.dropna()] *)
Definition dropna (df : DataFrame cell) : DataFrame num :=
  {| columns := columns df; rows := dropna_rows (rows df) |}.

Definition to_float (v : num) : Q :=
  match v with
  | IntV z => inject_Z z
  | FloatV q => q
  end.

(** [df.astype(float)] *)
Definition astype_float (df : DataFrame num) : DataFrame Q :=
  {| columns := columns df; rows := map (map to_float) (rows df) |}.

Fixpoint get_loc (name : string) (cols : list string) : option nat :=
  match cols with
  | [] => None
  | c :: cols' =>
      if String.eqb c name then Some 0
      else option_map S (get_loc name cols')
  end.

Definition delete {A} (i : nat) (l : list A) : list A :=
  firstn i l ++ skipn (S i) l.

(** [df[name]]: the series under a label, [KeyError] when the label is
    absent.  The default of [nth] is never read on a rectangular frame. *)
Definition getitem (name : string) (df : DataFrame Q) : result (list Q) :=
  match get_loc name (columns df) with
  | Some i => Ok (map (fun r => nth i r 0%Q) (rows df))
  | None => Raise (KeyError name)
  end.

(** [df.pop(name)]: returns the series and the frame without that column
    (the source mutates [X] in place; here the new frame is returned). *)
Definition pop (name : string) (df : DataFrame Q)
  : result (list Q * DataFrame Q) :=
  match get_loc name (columns df) with
  | Some i =>
      Ok (map (fun r => nth i r 0%Q) (rows df),
          {| columns := delete i (columns df);
             rows := map (delete i) (rows df) |})
  | None => Raise (KeyError name)
  end.

(** ** The loading cell

    [X = test_scores.dropna().astype(float)]
    [y = X.pop("score")]
    [N, D = X.shape] *)

Record dataset : Type := {
  X : DataFrame Q;
  y : list Q;
  N : nat;
  D : nat
}.

Definition load (test_scores : DataFrame cell) : result dataset :=
  let X0 := astype_float (dropna test_scores) in
  '(y, X) <- pop "score" X0 ;;
  let '(N, D) := shape X in
  Ok {| X := X; y := y; N := N; D := D |}.

(** ** pytensor: symbolic expressions and their shapes

    The model cells build symbolic expressions over registered random
    variables and constant arrays.  Tensors of rank at most two are
    covered, which is all the notebook builds. *)

Inductive tensor : Type :=
| Const (q : Q)
| Vec (v : list Q)
| Mat (nrows ncols : nat) (m : list (list Q))
| RV (name : string)
| Add (a b : tensor)
| Mul (a b : tensor)
| Dot (a b : tensor).

(** [series.values] and [df.values] *)
Definition values (df : DataFrame Q) : tensor :=
  Mat (fst (shape df)) (snd (shape df)) (rows df).

(** numpy broadcasting of two shapes, read from the last axis. *)
Fixpoint broadcast_rev (s1 s2 : list nat) : option (list nat) :=
  match s1, s2 with
  | [], s => Some s
  | s, [] => Some s
  | a :: s1', b :: s2' =>
      match broadcast_rev s1' s2' with
      | None => None
      | Some s =>
          if a =? b then Some (a :: s)
          else if a =? 1 then Some (b :: s)
          else if b =? 1 then Some (a :: s)
          else None
      end
  end.

Definition broadcast_shapes (s1 s2 : list nat) : result (list nat) :=
  match broadcast_rev (rev s1) (rev s2) with
  | Some s => Ok (rev s)
  | None => Raise (ShapeError s1 s2)
  end.

(** Shape of [dot(a, b)]: the last axis of [a] is contracted with the
    first axis of [b]; a rank-0 operand multiplies elementwise. *)
Definition dot_shape (s1 s2 : list nat) : result (list nat) :=
  match s1, s2 with
  | [], s => Ok s
  | s, [] => Ok s
  | [k], [k'] => if k =? k' then Ok [] else Raise (ShapeError s1 s2)
  | [n; d], [k] => if d =? k then Ok [n] else Raise (ShapeError s1 s2)
  | [k], [d; c] => if k =? d then Ok [c] else Raise (ShapeError s1 s2)
  | [n; d], [d'; c] => if d =? d' then Ok [n; c] else Raise (ShapeError s1 s2)
  | _, _ => Raise NotModelled
  end.

(** ** PyMC: models as registries of named random variables *)

Inductive dist : Type :=
| Normal (mu sigma : tensor)
| Uniform (lower upper : tensor)
| HalfNormal (sigma : tensor).

Record rv : Type := {
  rv_name : string;
  rv_dist : dist;
  rv_dims : option string;
  rv_observed : option (list Q);
  rv_shape : list nat
}.

Record Model : Type := {
  model_coords : list (string * list string);
  named_vars : list rv
}.

(** [pm.Model(coords=...)] *)
Definition pmModel (coords : list (string * list string)) : Model :=
  {| model_coords := coords; named_vars := [] |}.

Fixpoint lookup {A} (k : string) (l : list (string * A)) : option A :=
  match l with
  | [] => None
  | (k', a) :: l' => if String.eqb k' k then Some a else lookup k l'
  end.

Definition find_rv (x : string) (m : Model) : option rv :=
  find (fun r => String.eqb (rv_name r) x) (named_vars m).

(** Shape of an expression over constants, known when the expression is
    built.  The length of a dimension of a random variable is not known
    then, so expressions that refer to one are outside this function. *)
Fixpoint infer_shape (t : tensor) : result (list nat) :=
  match t with
  | Const _ => Ok []
  | Vec v => Ok [length v]
  | Mat n d _ => Ok [n; d]
  | RV x => Raise NotModelled
  | Add a b =>
      sa <- infer_shape a ;; sb <- infer_shape b ;; broadcast_shapes sa sb
  | Mul a b =>
      sa <- infer_shape a ;; sb <- infer_shape b ;; broadcast_shapes sa sb
  | Dot a b =>
      sa <- infer_shape a ;; sb <- infer_shape b ;; dot_shape sa sb
  end.

Definition params (d : dist) : list tensor :=
  match d with
  | Normal mu sigma => [mu; sigma]
  | Uniform lower upper => [lower; upper]
  | HalfNormal sigma => [sigma]
  end.

Fixpoint params_shape (ps : list tensor) : result (list nat) :=
  match ps with
  | [] => Ok []
  | p :: ps' =>
      s <- infer_shape p ;; ss <- params_shape ps' ;; broadcast_shapes s ss
  end.

(** Registration of a variable in the model of the enclosing [with]
    block.  A variable declared with [observed] has the shape of the
    data, and one declared with [dims] the length of that dimension in
    the model's [coords]; the declared shape is taken as it is, and
    nothing compares it with the parameters when the block runs: a
    mismatch shows only when the model is evaluated.  A variable declared
    with neither takes the broadcast shape of its parameters, which the
    cells always give as constants. *)
Definition register (x : string) (d : dist) (dims : option string)
    (observed : option (list Q)) (m : Model) : result (tensor * Model) :=
  match find_rv x m with
  | Some _ => Raise (ValueError "variable name already exists")
  | None =>
      sh <-
        match observed, dims with
        | Some ys, _ => Ok [length ys]
        | None, Some dim =>
            match lookup dim (model_coords m) with
            | Some labels => Ok [length labels]
            | None => Raise (KeyError dim)
            end
        | None, None => params_shape (params d)
        end ;;
      Ok (RV x,
          {| model_coords := model_coords m;
             named_vars := named_vars m ++
               [{| rv_name := x; rv_dist := d; rv_dims := dims;
                   rv_observed := observed; rv_shape := sh |}] |})
  end.

Definition pmNormal (x : string) (mu sigma : tensor) :=
  register x (Normal mu sigma).
Definition pmUniform (x : string) (lower upper : tensor) :=
  register x (Uniform lower upper).
Definition pmHalfNormal (x : string) (sigma : tensor) :=
  register x (HalfNormal sigma).

(** ** The model cells *)

(** [with basic_model: mu = pm.Normal('mu', mu=100, sigma=20) ...] *)
Definition basic_model (d : dataset) : result Model :=
  let m := pmModel [] in
  '(mu, m) <- pmNormal "mu" (Const 100) (Const 20) None None m ;;
  '(sigma, m) <- pmUniform "sigma" (Const 0) (Const 50) None None m ;;
  '(score, m) <- pmNormal "score" mu sigma None (Some (y d)) m ;;
  Ok m.

(** [with pm.Model() as simple_model: ...] *)
Definition simple_model (d : dataset) : result Model :=
  let m := pmModel [] in
  '(alpha, m) <- pmNormal "alpha" (Const 100) (Const 50) None None m ;;
  '(beta, m) <- pmNormal "beta" (Const 0) (Const 10) None None m ;;
  '(sigma, m) <- pmHalfNormal "sigma" (Const 25) None None m ;;
  siblings <- getitem "siblings" (X d) ;;
  let mu := Add alpha (Mul beta (Vec siblings)) in
  '(score, m) <- pmNormal "score" mu sigma None (Some (y d)) m ;;
  Ok m.

(** The [with pm.Model(coords = coords) as multi_model] block, as a
    function of the [coords] it reads. *)
Definition multi_model_with (coords : list (string * list string))
    (d : dataset) : result Model :=
  let m := pmModel coords in
  '(alpha, m) <- pmNormal "alpha" (Const 100) (Const 50) None None m ;;
  '(beta, m) <- pmNormal "beta" (Const 0) (Const 10) (Some "predictors") None m ;;
  '(sigma, m) <- pmUniform "sigma" (Const 0) (Const 20) None None m ;;
  '(score, m) <-
     pmNormal "score" (Add alpha (Dot (values (X d)) beta)) sigma
       None (Some (y d)) m ;;
  Ok m.

(** [coords = {"predictors": X.columns.values}] *)
Definition coords (d : dataset) : list (string * list string) :=
  [("predictors", columns (X d))].

Definition multi_model (d : dataset) : result Model :=
  multi_model_with (coords d) d.

(** The mathematical model written in the markdown cell above each
    regression cell. *)
Definition documented (x : string) : option dist :=
  if String.eqb x "alpha" then Some (Normal (Const 100) (Const 50))
  else if String.eqb x "beta" then Some (Normal (Const 0) (Const 10))
  else if String.eqb x "sigma" then Some (HalfNormal (Const 25))
  else None.

(** ** pytensor: values

    A draw assigns a value to every free random variable; expressions are
    evaluated under it with numpy's broadcasting.  Parameter values are
    real numbers, idealised as rationals like the data. *)

Inductive tval : Type :=
| Scalar (q : Q)
| Vector (v : list Q)
| Matrix (nrows ncols : nat) (m : list (list Q)).

Definition shape_of (v : tval) : list nat :=
  match v with
  | Scalar _ => []
  | Vector v => [length v]
  | Matrix n d _ => [n; d]
  end.

Definition zip_with (op : Q -> Q -> Q) (u v : list Q) : list Q :=
  map (fun '(p, q) => op p q) (combine u v).

Definition elemwise (op : Q -> Q -> Q) (a b : tval) : result tval :=
  match a, b with
  | Scalar p, Scalar q => Ok (Scalar (op p q))
  | Scalar p, Vector v => Ok (Vector (map (op p) v))
  | Vector u, Scalar q => Ok (Vector (map (fun p => op p q) u))
  | Vector u, Vector v =>
      if length u =? length v then Ok (Vector (zip_with op u v))
      else
        match u, v with
        | [p], _ => Ok (Vector (map (op p) v))
        | _, [q] => Ok (Vector (map (fun p => op p q) u))
        | _, _ => Raise (ShapeError [length u] [length v])
        end
  | Scalar p, Matrix n d m => Ok (Matrix n d (map (map (op p)) m))
  | Matrix n d m, Scalar q => Ok (Matrix n d (map (map (fun p => op p q)) m))
  | _, _ => Raise NotModelled
  end.

(** Inner product of a predictor row with a slope vector. *)
Definition inner (u v : list Q) : Q :=
  fold_right Qplus 0%Q (zip_with Qmult u v).

Definition dot (a b : tval) : result tval :=
  match a, b with
  | Scalar _, _ => elemwise Qmult a b
  | _, Scalar _ => elemwise Qmult a b
  | Vector u, Vector v =>
      if length u =? length v then Ok (Scalar (inner u v))
      else Raise (ShapeError [length u] [length v])
  | Matrix n d m, Vector v =>
      if d =? length v then Ok (Vector (map (fun r => inner r v) m))
      else Raise (ShapeError [n; d] [length v])
  | _, _ => Raise NotModelled
  end.

Definition draw : Type := list (string * tval).

Fixpoint eval (dr : draw) (t : tensor) : result tval :=
  match t with
  | Const q => Ok (Scalar q)
  | Vec v => Ok (Vector v)
  | Mat n d m => Ok (Matrix n d m)
  | RV x =>
      match lookup x dr with
      | Some v => Ok v
      | None => Raise (NameError x)
      end
  | Add a b => va <- eval dr a ;; vb <- eval dr b ;; elemwise Qplus va vb
  | Mul a b => va <- eval dr a ;; vb <- eval dr b ;; elemwise Qmult va vb
  | Dot a b => va <- eval dr a ;; vb <- eval dr b ;; dot va vb
  end.

(** A value spread over the [n] rows of the observed response. *)
Definition broadcast_to (n : nat) (v : tval) : result (list Q) :=
  match v with
  | Scalar q => Ok (repeat q n)
  | Vector u =>
      if length u =? n then Ok u
      else
        match u with
        | [q] => Ok (repeat q n)
        | _ => Raise (ShapeError [length u] [n])
        end
  | Matrix r c _ => Raise (ShapeError [r; c] [n])
  end.

(** The likelihood of every model cell is
    [pm.Normal("score", mu, sigma, observed=...)]; its location [mu] is
    the linear predictor. *)
Definition linear_predictor (m : Model) : result tensor :=
  match find_rv "score" m with
  | Some r =>
      match rv_dist r with
      | Normal mu _ => Ok mu
      | _ => Raise NotModelled
      end
  | None => Raise (KeyError "score")
  end.

(** The linear predictor of each row of the observed response, under a
    draw of the parameters. *)
Definition predictor_rows (m : Model) (dr : draw) : result (list Q) :=
  match find_rv "score" m with
  | Some r =>
      match rv_dist r, rv_observed r with
      | Normal mu _, Some ys => v <- eval dr mu ;; broadcast_to (length ys) v
      | _, _ => Raise NotModelled
      end
  | None => Raise (KeyError "score")
  end.

(** Free random variables: the registered variables without observed
    data; each counts one parameter per element of its shape. *)
Definition free_RVs (m : Model) : list rv :=
  filter (fun r => match rv_observed r with None => true | Some _ => false end)
    (named_vars m).

Definition size (s : list nat) : nat := fold_right Nat.mul 1 s.

Definition n_parameters (m : Model) : nat :=
  fold_right Nat.add 0 (map (fun r => size (rv_shape r)) (free_RVs m)).

Definition prior (x : string) (m : Model) : option dist :=
  match find_rv x m with
  | Some r =>
      match rv_observed r with
      | None => Some (rv_dist r)
      | Some _ => None
      end
  | None => None
  end.

(** Lower end of the support of a distribution with constant parameters
    ([None]: unbounded below, or not a constant). *)
Definition support_lower (d : dist) : option Q :=
  match d with
  | Normal _ _ => None
  | Uniform (Const l) _ => Some l
  | Uniform _ _ => None
  | HalfNormal _ => Some 0%Q
  end.

Definition nonneg_support (d : dist) : Prop :=
  exists l, support_lower d = Some l /\ (0 <= l)%Q.

(** Random variables a distribution's parameters refer to. *)
Fixpoint parents (t : tensor) : list string :=
  match t with
  | RV x => [x]
  | Add a b | Mul a b | Dot a b => parents a ++ parents b
  | _ => []
  end.

Definition dist_parents (d : dist) : list string :=
  flat_map parents (params d).

(** ** Prior-predictive simulation

    Modelled from the spec: [pm.sample_prior_predictive] belongs to the
    sampling engine, which the notebook calls and does not contain.  The
    spec describes it as drawing the requested number of independent
    samples of the response purely from the priors, without conditioning
    on the observed data.  It is written here as ancestral sampling: each
    draw visits the registered variables in order, evaluates the
    parameters of a variable under the values drawn so far, and draws one
    variate per element of the variable's shape.  The primitive variates
    and the generator state are those of the engine and stay abstract. *)

Record sampler : Type := {
  rng : Type;
  normal : Q -> Q -> rng -> Q * rng;
  uniform : Q -> Q -> rng -> Q * rng;
  half_normal : Q -> rng -> Q * rng
}.

Definition variate (E : sampler) (d : dist) (ps : list Q) (g : rng E)
  : result (Q * rng E) :=
  match d, ps with
  | Normal _ _, [mu; sigma] => Ok (normal E mu sigma g)
  | Uniform _ _, [lower; upper] => Ok (uniform E lower upper g)
  | HalfNormal _, [sigma] => Ok (half_normal E sigma g)
  | _, _ => Raise NotModelled
  end.

Fixpoint variates (E : sampler) (d : dist) (pss : list (list Q)) (g : rng E)
  : result (list Q * rng E) :=
  match pss with
  | [] => Ok ([], g)
  | ps :: pss' =>
      '(q, g1) <- variate E d ps g ;;
      '(qs, g2) <- variates E d pss' g1 ;;
      Ok (q :: qs, g2)
  end.

Fixpoint mapM {A B} (f : A -> result B) (l : list A) : result (list B) :=
  match l with
  | [] => Ok []
  | a :: l' => b <- f a ;; bs <- mapM f l' ;; Ok (b :: bs)
  end.

Definition as_scalar (v : tval) : result Q :=
  match v with
  | Scalar q => Ok q
  | _ => Raise (ShapeError (shape_of v) [])
  end.

(** One variate per element of the shape of [r], under the draw so far. *)
Definition sample_rv (E : sampler) (r : rv) (dr : draw) (g : rng E)
  : result (tval * rng E) :=
  vs <- mapM (eval dr) (params (rv_dist r)) ;;
  match rv_shape r with
  | [] =>
      ps <- mapM as_scalar vs ;;
      '(q, g') <- variate E (rv_dist r) ps g ;;
      Ok (Scalar q, g')
  | [n] =>
      cols <- mapM (broadcast_to n) vs ;;
      '(qs, g') <-
         variates E (rv_dist r)
           (map (fun i => map (fun c => nth i c 0%Q) cols) (seq 0 n)) g ;;
      Ok (Vector qs, g')
  | _ => Raise NotModelled
  end.

Fixpoint sample_rvs (E : sampler) (rs : list rv) (dr : draw) (g : rng E)
  : result (draw * rng E) :=
  match rs with
  | [] => Ok (dr, g)
  | r :: rs' =>
      '(v, g1) <- sample_rv E r dr g ;;
      sample_rvs E rs' (dr ++ [(rv_name r, v)]) g1
  end.

(** The groups of the returned inference data, one entry per draw (the
    engine's single chain is left implicit): [prior] holds the free
    variables and [prior_predictive] the variables declared with
    [observed]. *)
Record InferenceData : Type := {
  prior_group : list draw;
  prior_predictive : list draw
}.

Definition is_observed (m : Model) (x : string) : bool :=
  match find_rv x m with
  | Some r =>
      match rv_observed r with
      | Some _ => true
      | None => false
      end
  | None => false
  end.

Fixpoint sample_draws (E : sampler) (samples : nat) (m : Model) (g : rng E)
  : result (list draw * rng E) :=
  match samples with
  | O => Ok ([], g)
  | S k =>
      '(dr, g1) <- sample_rvs E (named_vars m) [] g ;;
      '(drs, g2) <- sample_draws E k m g1 ;;
      Ok (dr :: drs, g2)
  end.

(** [pm.sample_prior_predictive(samples=...)] inside [with model:] *)
Definition sample_prior_predictive (E : sampler) (samples : nat) (m : Model)
    (g : rng E) : result (InferenceData * rng E) :=
  '(drs, g') <- sample_draws E samples m g ;;
  Ok ({| prior_group :=
           map (filter (fun b => negb (is_observed m (fst b)))) drs;
         prior_predictive :=
           map (filter (fun b => is_observed m (fst b))) drs |}, g').

(** The prior-predictive cell:
    [with basic_model: prior_pred = pm.sample_prior_predictive(samples=500)] *)
Definition prior_pred (E : sampler) (d : dataset) (g : rng E)
  : result (InferenceData * rng E) :=
  m <- basic_model d ;; sample_prior_predictive E 500 m g.

(** A deterministic stand-in for the engine's generator: a counter. *)
Definition counter : sampler :=
  {| rng := Z;
     normal := fun mu sigma g => ((mu + sigma * inject_Z g)%Q, (g + 1)%Z);
     uniform := fun lower upper g => (((lower + upper) / 2)%Q, (g + 1)%Z);
     half_normal := fun sigma g => (sigma, (g + 1)%Z) |}.

(** The naive cell read as a generative procedure, line by line:
    [mu] is one variate of [Normal(100, 20)], [sigma] one variate of
    [Uniform(0, 50)], and the response has one variate of
    [Normal(mu, sigma)] per row, the generator being passed along.  A
    prior-predictive sample is compared with this procedure below. *)
Fixpoint normals (E : sampler) (mu sigma : Q) (n : nat) (g : rng E)
  : list Q * rng E :=
  match n with
  | O => ([], g)
  | S k =>
      let (q, g1) := normal E mu sigma g in
      let (qs, g2) := normals E mu sigma k g1 in
      (q :: qs, g2)
  end.

Record naive_sample : Type := {
  mu_drawn : Q;
  sigma_drawn : Q;
  score_drawn : list Q
}.

Definition naive_draw (E : sampler) (n : nat) (g : rng E)
  : naive_sample * rng E :=
  let (a, g1) := normal E 100 20 g in
  let (s, g2) := uniform E 0 50 g1 in
  let (v, g3) := normals E a s n g2 in
  ({| mu_drawn := a; sigma_drawn := s; score_drawn := v |}, g3).

Fixpoint naive_draws (E : sampler) (samples n : nat) (g : rng E)
  : list naive_sample * rng E :=
  match samples with
  | O => ([], g)
  | S k =>
      let (x, g1) := naive_draw E n g in
      let (xs, g2) := naive_draws E k n g1 in
      (x :: xs, g2)
  end.

Definition draw_of (x : naive_sample) : draw :=
  [("mu", Scalar (mu_drawn x)); ("sigma", Scalar (sigma_drawn x));
   ("score", Vector (score_drawn x))].

(** ** Auxiliary definitions for the statements below *)

(** The registered variables of each cell, written out. *)
Definition free_rv (x : string) (d : dist) (dims : option string)
    (sh : list nat) : rv :=
  {| rv_name := x; rv_dist := d; rv_dims := dims;
     rv_observed := None; rv_shape := sh |}.

Definition observed_rv (x : string) (d : dist) (ys : list Q) : rv :=
  {| rv_name := x; rv_dist := d; rv_dims := None;
     rv_observed := Some ys; rv_shape := [length ys] |}.

Definition basic_vars (ys : list Q) : list rv :=
  [free_rv "mu" (Normal (Const 100) (Const 20)) None [];
   free_rv "sigma" (Uniform (Const 0) (Const 50)) None [];
   observed_rv "score" (Normal (RV "mu") (RV "sigma")) ys].

Ltac run_block :=
  repeat (progress
            (unfold pmNormal, pmUniform, pmHalfNormal, register,
               broadcast_shapes;
             cbn; rewrite ?Nat.eqb_refl)).

(** ** Small tables in the layout of the course data *)

Definition test_scores0 : DataFrame cell :=
  {| columns := ["score"; "male"; "siblings"];
     rows := [[Some (IntV 40); Some (IntV 0); Some (FloatV 2)];
              [Some (IntV 31); None; Some (FloatV 0)];
              [Some (FloatV (167#2)); Some (IntV 1); Some (IntV 3)]] |}.

Definition loaded0 : dataset :=
  {| X := {| columns := ["male"; "siblings"];
             rows := [[0; 2]; [1; 3]]%Q |};
     y := [40; 167#2]%Q;
     N := 2;
     D := 2 |}.

(** Every row has a missing value. *)
Definition all_missing : DataFrame cell :=
  {| columns := ["score"; "siblings"];
     rows := [[Some (IntV 40); None]; [None; Some (IntV 1)]] |}.

(** No response column. *)
Definition no_score : DataFrame cell :=
  {| columns := ["male"; "siblings"];
     rows := [[Some (IntV 0); Some (IntV 2)]] |}.

(** Five predictor columns, and a [coords] with four labels. *)
Definition five_predictors : DataFrame cell :=
  {| columns := ["score"; "male"; "siblings"; "family_inv"; "non_english";
                 "prev_disab"];
     rows := [[Some (IntV 40); Some (IntV 0); Some (IntV 2); Some (IntV 3);
               Some (IntV 0); Some (IntV 1)]] |}.

Definition loaded5 : dataset :=
  {| X := {| columns := ["male"; "siblings"; "family_inv"; "non_english";
                         "prev_disab"];
             rows := [[0; 2; 3; 0; 1]]%Q |};
     y := [40]%Q;
     N := 1;
     D := 5 |}.


Definition dr0 : draw :=
  [("alpha", Scalar 100); ("beta", Scalar (-3)); ("sigma", Scalar 5)].

Definition dr1 : draw :=
  [("alpha", Scalar 100); ("beta", Vector [1#2; -3]%Q); ("sigma", Scalar 5)].

(** A table with the response and the single predictor [siblings]. *)
Definition siblings_only : DataFrame cell :=
  {| columns := ["score"; "siblings"];
     rows := [[Some (IntV 40); Some (IntV 2)];
              [Some (FloatV (167#2)); Some (IntV 0)]] |}.

Definition loaded1 : dataset :=
  {| X := {| columns := ["siblings"]; rows := [[2]; [0]]%Q |};
     y := [40; 167#2]%Q;
     N := 2;
     D := 1 |}.

(** A table without the column [siblings]. *)
Definition no_siblings : DataFrame cell :=
  {| columns := ["score"; "male"];
     rows := [[Some (IntV 40); Some (IntV 0)]] |}.

Definition loaded_no_siblings : dataset :=
  {| X := {| columns := ["male"]; rows := [[0]]%Q |};
     y := [40]%Q;
     N := 1;
     D := 1 |}.

(** The rows of [test_scores0] without missing cells, with another
    predictor column beside [siblings]. *)
Definition test_scores2 : DataFrame cell :=
  {| columns := ["score"; "siblings"; "age_test"];
     rows := [[Some (IntV 40); Some (IntV 2); Some (IntV 30)];
              [Some (FloatV (167#2)); Some (IntV 3); Some (IntV 41)]] |}.

Definition loaded2 : dataset :=
  {| X := {| columns := ["siblings"; "age_test"];
             rows := [[2; 30]; [3; 41]]%Q |};
     y := [40; 167#2]%Q;
     N := 2;
     D := 2 |}.


(** Putting a value back at position [i] of a row: the inverse of taking
    column [i] out with [pop]. *)
Definition insert_at {A} (i : nat) (v : A) (l : list A) : list A :=
  firstn i l ++ v :: skipn i l.

(** Position of a column after the column at [i] has been taken out. *)
Definition shifted (i j : nat) : nat := if j <? i then j else pred j.

(** * Properties of the loading cell *)

Lemma notna_present (r : list cell) :
  match notna r with
  | Some vs => r = map Some vs /\ forallb present r = true
  | None => forallb present r = false
  end.
Proof.
  induction r as [|c r IH]; simpl.
  - split; reflexivity.
  - destruct c as [v|]; simpl; [|reflexivity].
    destruct (notna r) as [vs|].
    + destruct IH as [-> IH]. split; [reflexivity | exact IH].
    + exact IH.
Qed.

Lemma dropna_rows_filter (rs : list (list cell)) :
  map (map Some) (dropna_rows rs) = filter (forallb present) rs.
Proof.
  induction rs as [|r rs IH]; simpl; [reflexivity|].
  pose proof (notna_present r) as Hr.
  destruct (notna r) as [vs|].
  - destruct Hr as [Hr Hp]. rewrite Hp. simpl. now rewrite IH, <- Hr.
  - now rewrite Hr.
Qed.

Lemma dropna_rows_width (n : nat) (rs : list (list cell)) :
  Forall (fun r => length r = n) rs ->
  Forall (fun r => length r = n) (dropna_rows rs).
Proof.
  induction 1 as [|r rs Hr _ IH]; simpl; [constructor|].
  pose proof (notna_present r) as Hp.
  destruct (notna r) as [vs|]; [|exact IH].
  constructor; [|exact IH].
  destruct Hp as [-> _]. now rewrite length_map in Hr.
Qed.

Lemma get_loc_lt (name : string) (cols : list string) (i : nat) :
  get_loc name cols = Some i -> i < length cols.
Proof.
  revert i. induction cols as [|c cols IH]; simpl; intros i H; [discriminate|].
  destruct (String.eqb c name).
  - injection H as <-. lia.
  - destruct (get_loc name cols) as [j|]; [|discriminate].
    injection H as <-. specialize (IH j eq_refl). lia.
Qed.

Lemma get_loc_In (name : string) (cols : list string) :
  In name cols <-> exists i, get_loc name cols = Some i.
Proof.
  induction cols as [|c cols IH]; simpl.
  - split; [tauto | intros [i H]; discriminate].
  - destruct (String.eqb_spec c name) as [->|Hne].
    + split; [eauto | tauto].
    + rewrite IH. split.
      * intros [H|[i H]]; [contradiction|]. rewrite H. simpl. eauto.
      * intros [i H]. destruct (get_loc name cols) as [j|]; [eauto|discriminate].
Qed.

Lemma length_delete {A} (i : nat) (l : list A) :
  i < length l -> S (length (delete i l)) = length l.
Proof.
  intros H. unfold delete.
  rewrite length_app, length_firstn, length_skipn. lia.
Qed.

Lemma load_inv (t : DataFrame cell) (d : dataset) :
  load t = Ok d ->
  exists i,
    get_loc "score" (columns t) = Some i /\
    y d = map (fun r => nth i r 0%Q) (rows (astype_float (dropna t))) /\
    X d = {| columns := delete i (columns t);
             rows := map (delete i) (rows (astype_float (dropna t))) |} /\
    N d = length (rows (X d)) /\
    D d = length (columns (X d)).
Proof.
  unfold load, pop. simpl.
  destruct (get_loc "score" (columns t)) as [i|]; simpl; [|discriminate].
  intros H. injection H as <-. exists i. simpl. repeat split.
Qed.


(** C1.  Loading removes exactly the rows with a missing value, converts
    the surviving cells to floats and splits off the response: the
    predictor matrix has [N] rows of [D] entries each, the response has
    [N] entries, and [N] is the number of rows without a missing value. *)
Theorem load_row_counts (t : DataFrame cell) (d : dataset) :
  rectangular t ->
  load t = Ok d ->
  map (map Some) (rows (dropna t)) = filter (forallb present) (rows t) /\
  (exists i,
      get_loc "score" (columns t) = Some i /\
      y d = map (fun r => nth i r 0%Q) (map (map to_float) (rows (dropna t))) /\
      rows (X d) = map (delete i) (map (map to_float) (rows (dropna t)))) /\
  length (rows (X d)) = N d /\
  length (y d) = N d /\
  N d = length (rows (dropna t)) /\
  N d = length (filter (forallb present) (rows t)) /\
  Forall (fun r => length r = D d) (rows (X d)) /\
  length (columns (X d)) = D d /\
  S (D d) = length (columns t).
Proof.
  intros Hrect Hload.
  destruct (load_inv t d Hload) as (i & Hi & Hy & HX & HN & HD).
  pose proof (get_loc_lt _ _ _ Hi) as Hlt.
  assert (Hrows : length (rows (X d)) = length (rows (dropna t))).
  { rewrite HX. simpl. now rewrite !length_map. }
  split; [apply dropna_rows_filter|].
  split; [exists i; rewrite HX; simpl; auto|].
  split; [now rewrite HN|].
  split; [rewrite Hy, HN, Hrows; simpl; now rewrite !length_map|].
  split; [now rewrite HN|].
  split.
  { rewrite HN, Hrows. simpl.
    rewrite <- (dropna_rows_filter (rows t)). now rewrite length_map. }
  assert (HDS : S (D d) = length (columns t)).
  { rewrite HD, HX. simpl. now apply length_delete. }
  split; [|split; [now rewrite HD | exact HDS]].
  rewrite HX. simpl.
  pose proof (dropna_rows_width _ _ Hrect) as Hw.
  rewrite !Forall_map. revert Hw. apply Forall_impl.
  intros r Hr.
  assert (i < length (map to_float r)) by (rewrite length_map; lia).
  pose proof (length_delete i (map to_float r) H) as Hd.
  rewrite length_map in Hd. lia.
Qed.

Lemma load_row_counts_witness :
  rectangular test_scores0 /\
  load test_scores0 = Ok loaded0 /\
  length (rows (X loaded0)) = N loaded0 /\
  length (y loaded0) = N loaded0 /\
  N loaded0 = length (filter (forallb present) (rows test_scores0)).
Proof.
  assert (Hr : rectangular test_scores0) by (repeat constructor).
  assert (Hl : load test_scores0 = Ok loaded0) by reflexivity.
  destruct (load_row_counts test_scores0 loaded0 Hr Hl)
    as (_ & _ & HX & Hy & _ & HN & _).
  repeat split; assumption.
Defined.

(** C5, as the code has it.  Loading raises [KeyError] on the label
    [score] when the table has no such column, and in every other case it
    returns: a table whose rows all have a missing value yields [N = 0]
    and an empty response. *)
Theorem load_errors (t : DataFrame cell) :
  (~ In "score" (columns t) -> load t = Raise (KeyError "score")) /\
  (In "score" (columns t) ->
   exists d, load t = Ok d /\
             N d = length (filter (forallb present) (rows t)) /\
             length (y d) = N d).
Proof.
  split; intros H.
  - unfold load, pop. simpl.
    destruct (get_loc "score" (columns t)) as [i|] eqn:E; [|reflexivity].
    exfalso. apply H. apply get_loc_In. eauto.
  - apply get_loc_In in H. destruct H as [i Hi].
    unfold load, pop. simpl. rewrite Hi. simpl.
    eexists. split; [reflexivity|]. simpl.
    rewrite !length_map.
    rewrite <- (dropna_rows_filter (rows t)). now rewrite length_map.
Qed.

Lemma load_errors_witness :
  load no_score = Raise (KeyError "score") /\
  exists d, load all_missing = Ok d /\
            N d = length (filter (forallb present) (rows all_missing)) /\
            length (y d) = N d.
Proof.
  split.
  - apply (proj1 (load_errors no_score)). simpl.
    intros [H|[H|[]]]; discriminate.
  - apply (proj2 (load_errors all_missing)). simpl. left. reflexivity.
Defined.

(** C5, as stated, fails: removal leaves no row of [all_missing], and
    loading returns normally. *)
Lemma load_empty_after_filtering :
  rows (dropna all_missing) = [] /\
  load all_missing =
    Ok {| X := {| columns := ["siblings"]; rows := [] |};
          y := []; N := 0; D := 1 |}.
Proof. split; reflexivity. Qed.

(** * Properties of the model cells *)

Lemma basic_model_eq (d : dataset) :
  basic_model d =
  Ok {| model_coords := [];
        named_vars :=
          [free_rv "mu" (Normal (Const 100) (Const 20)) None [];
           free_rv "sigma" (Uniform (Const 0) (Const 50)) None [];
           observed_rv "score" (Normal (RV "mu") (RV "sigma")) (y d)] |}.
Proof. unfold basic_model. run_block. reflexivity. Qed.

Lemma getitem_length (x : string) (df : DataFrame Q) (xs : list Q) :
  getitem x df = Ok xs -> length xs = length (rows df).
Proof.
  unfold getitem. destruct (get_loc x (columns df)); [|discriminate].
  intros H. injection H as <-. apply length_map.
Qed.

Lemma simple_model_eq (d : dataset) (xs : list Q) :
  getitem "siblings" (X d) = Ok xs ->
  length (rows (X d)) = length (y d) ->
  simple_model d =
  Ok {| model_coords := [];
        named_vars :=
          [free_rv "alpha" (Normal (Const 100) (Const 50)) None [];
           free_rv "beta" (Normal (Const 0) (Const 10)) None [];
           free_rv "sigma" (HalfNormal (Const 25)) None [];
           observed_rv "score"
             (Normal (Add (RV "alpha") (Mul (RV "beta") (Vec xs)))
                     (RV "sigma")) (y d)] |}.
Proof.
  intros Hx Hy. pose proof (getitem_length _ _ _ Hx) as Hn.
  unfold simple_model. run_block. rewrite Hx. run_block. reflexivity.
Qed.

Lemma simple_model_inv (d : dataset) (m : Model) :
  simple_model d = Ok m -> exists xs, getitem "siblings" (X d) = Ok xs.
Proof.
  unfold simple_model. run_block.
  destruct (getitem "siblings" (X d)) as [xs|e]; [eauto|discriminate].
Qed.

Lemma multi_model_with_eq (cs : list (string * list string)) (d : dataset)
    (labels : list string) :
  lookup "predictors" cs = Some labels ->
  multi_model_with cs d =
  Ok {| model_coords := cs;
        named_vars :=
          [free_rv "alpha" (Normal (Const 100) (Const 50)) None [];
           free_rv "beta" (Normal (Const 0) (Const 10)) (Some "predictors")
             [length labels];
           free_rv "sigma" (Uniform (Const 0) (Const 20)) None [];
           observed_rv "score"
             (Normal (Add (RV "alpha") (Dot (values (X d)) (RV "beta")))
                     (RV "sigma")) (y d)] |}.
Proof.
  intros Hc. unfold multi_model_with. run_block. rewrite Hc. run_block.
  reflexivity.
Qed.

Lemma multi_model_with_unbound (cs : list (string * list string))
    (d : dataset) :
  lookup "predictors" cs = None ->
  multi_model_with cs d = Raise (KeyError "predictors").
Proof.
  intros Hc. unfold multi_model_with. run_block. rewrite Hc. reflexivity.
Qed.

Lemma load_consistent (t : DataFrame cell) (d : dataset) :
  load t = Ok d ->
  length (rows (X d)) = length (y d) /\
  N d = length (rows (X d)) /\
  D d = length (columns (X d)).
Proof.
  intros H. destruct (load_inv t d H) as (i & _ & Hy & HX & HN & HD).
  repeat split; try assumption.
  rewrite Hy, HX. simpl. now rewrite !length_map.
Qed.

Lemma multi_model_eq (t : DataFrame cell) (d : dataset) :
  load t = Ok d ->
  multi_model d =
  Ok {| model_coords := [("predictors", columns (X d))];
        named_vars :=
          [free_rv "alpha" (Normal (Const 100) (Const 50)) None [];
           free_rv "beta" (Normal (Const 0) (Const 10)) (Some "predictors")
             [D d];
           free_rv "sigma" (Uniform (Const 0) (Const 20)) None [];
           observed_rv "score"
             (Normal (Add (RV "alpha") (Dot (values (X d)) (RV "beta")))
                     (RV "sigma")) (y d)] |}.
Proof.
  intros H. destruct (load_consistent t d H) as (Hy & _ & HD).
  unfold multi_model, coords.
  rewrite (multi_model_with_eq _ d (columns (X d))) by reflexivity.
  now rewrite HD.
Qed.

Lemma simple_model_loaded (t : DataFrame cell) (d : dataset) (xs : list Q) :
  load t = Ok d ->
  getitem "siblings" (X d) = Ok xs ->
  simple_model d =
  Ok {| model_coords := [];
        named_vars :=
          [free_rv "alpha" (Normal (Const 100) (Const 50)) None [];
           free_rv "beta" (Normal (Const 0) (Const 10)) None [];
           free_rv "sigma" (HalfNormal (Const 25)) None [];
           observed_rv "score"
             (Normal (Add (RV "alpha") (Mul (RV "beta") (Vec xs)))
                     (RV "sigma")) (y d)] |}.
Proof.
  intros H Hx. destruct (load_consistent t d H) as (Hy & _).
  now apply simple_model_eq.
Qed.

(** ** Values of the linear predictor *)

Lemma eval_simple_mu (dr : draw) (a b : Q) (xs : list Q) :
  lookup "alpha" dr = Some (Scalar a) ->
  lookup "beta" dr = Some (Scalar b) ->
  eval dr (Add (RV "alpha") (Mul (RV "beta") (Vec xs))) =
  Ok (Vector (map (fun x => a + b * x)%Q xs)).
Proof.
  intros Ha Hb. simpl. rewrite Ha, Hb. simpl. now rewrite map_map.
Qed.

Lemma eval_multi_mu (dr : draw) (a : Q) (b : list Q) (n k : nat)
    (m : list (list Q)) :
  lookup "alpha" dr = Some (Scalar a) ->
  lookup "beta" dr = Some (Vector b) ->
  length b = k ->
  eval dr (Add (RV "alpha") (Dot (Mat n k m) (RV "beta"))) =
  Ok (Vector (map (fun r => a + inner r b)%Q m)).
Proof.
  intros Ha Hb Hk. simpl. rewrite Ha, Hb. simpl.
  rewrite Hk, Nat.eqb_refl. simpl. now rewrite map_map.
Qed.


Lemma broadcast_to_length (n : nat) (u : list Q) :
  length u = n -> broadcast_to n (Vector u) = Ok u.
Proof. intros H. simpl. now rewrite H, Nat.eqb_refl. Qed.

Lemma inner_nil_r (r : list Q) : inner r [] = 0%Q.
Proof. unfold inner, zip_with. now rewrite combine_nil. Qed.

Lemma inner_zero_row (r b : list Q) :
  Forall (fun x => x == 0)%Q r -> (inner r b == 0)%Q.
Proof.
  intros H. revert b. induction H as [|x r Hx _ IH]; intros b.
  - reflexivity.
  - destruct b as [|q b]; [reflexivity|].
    change (inner (x :: r) (q :: b)) with (x * q + inner r b)%Q.
    rewrite Hx, IH. ring.
Qed.

Lemma simple_zero_predictor (a b : Q) (xs : list Q) :
  Forall (fun x => x == 0)%Q xs ->
  Forall (fun mu => mu == a)%Q (map (fun x => a + b * x)%Q xs).
Proof.
  intros H. rewrite Forall_map. revert H. apply Forall_impl.
  intros x Hx. rewrite Hx. ring.
Qed.

Lemma multi_zero_predictors (a : Q) (b : list Q) (m : list (list Q)) :
  Forall (Forall (fun x => x == 0)%Q) m ->
  Forall (fun mu => mu == a)%Q (map (fun r => a + inner r b)%Q m).
Proof.
  intros H. rewrite Forall_map. revert H. apply Forall_impl.
  intros r Hr. rewrite (inner_zero_row r b Hr). ring.
Qed.

Lemma multi_no_predictors (a : Q) (m : list (list Q)) :
  Forall (fun mu => mu == a)%Q (map (fun r => a + inner r [])%Q m).
Proof.
  rewrite Forall_map. apply Forall_forall. intros r _.
  rewrite inner_nil_r. ring.
Qed.

(** C2.  Under a draw with intercept [a]: in the simple model the linear
    predictor of each row is [a + b * x] for that row's predictor value
    [x]; in the multi-predictor model it is [a] plus the inner product of
    the row with the slope vector, which is [a] alone when [D = 0]; and it
    equals [a] on every row when all predictor values are zero. *)
Theorem linear_predictor_rows (t : DataFrame cell) (d : dataset)
    (dr : draw) (a : Q) :
  load t = Ok d ->
  lookup "alpha" dr = Some (Scalar a) ->
  (forall xs b,
      getitem "siblings" (X d) = Ok xs ->
      lookup "beta" dr = Some (Scalar b) ->
      exists m,
        simple_model d = Ok m /\
        linear_predictor m = Ok (Add (RV "alpha") (Mul (RV "beta") (Vec xs))) /\
        predictor_rows m dr = Ok (map (fun x => a + b * x)%Q xs) /\
        length xs = N d /\
        (Forall (fun x => x == 0)%Q xs ->
         Forall (fun mu => mu == a)%Q (map (fun x => a + b * x)%Q xs))) /\
  (forall b,
      lookup "beta" dr = Some (Vector b) ->
      length b = D d ->
      exists m,
        multi_model d = Ok m /\
        linear_predictor m =
          Ok (Add (RV "alpha") (Dot (values (X d)) (RV "beta"))) /\
        predictor_rows m dr =
          Ok (map (fun r => a + inner r b)%Q (rows (X d))) /\
        (D d = 0 ->
         Forall (fun mu => mu == a)%Q
           (map (fun r => a + inner r b)%Q (rows (X d)))) /\
        (Forall (Forall (fun x => x == 0)%Q) (rows (X d)) ->
         Forall (fun mu => mu == a)%Q
           (map (fun r => a + inner r b)%Q (rows (X d))))).
Proof.
  intros Hload Ha.
  destruct (load_consistent t d Hload) as (Hy & HN & HD).
  split.
  - intros xs b Hx Hb.
    pose proof (getitem_length _ _ _ Hx) as Hn.
    eexists. split; [apply (simple_model_loaded t d xs Hload Hx)|].
    split; [reflexivity|].
    split; [|split; [congruence | apply simple_zero_predictor]].
    unfold predictor_rows. cbn -[eval broadcast_to].
    rewrite (eval_simple_mu dr a b xs Ha Hb). cbn -[broadcast_to].
    apply broadcast_to_length. rewrite length_map. congruence.
  - intros b Hb Hk.
    eexists. split; [apply (multi_model_eq t d Hload)|].
    split; [reflexivity|].
    split.
    + unfold predictor_rows, values, shape.
      cbn -[eval broadcast_to].
      rewrite (eval_multi_mu dr a b _ _ _ Ha Hb) by congruence.
      cbn -[broadcast_to].
      apply broadcast_to_length. rewrite length_map. congruence.
    + split.
      * intros H0. rewrite H0 in Hk. destruct b; [|discriminate].
        apply multi_no_predictors.
      * apply multi_zero_predictors.
Qed.

Lemma linear_predictor_rows_witness :
  exists m,
    simple_model loaded0 = Ok m /\
    predictor_rows m dr0 = Ok (map (fun x => 100 + -3 * x)%Q [2; 3]%Q).
Proof.
  destruct (linear_predictor_rows test_scores0 loaded0 dr0 100%Q
              eq_refl eq_refl) as [Hs _].
  destruct (Hs [2; 3]%Q (-3)%Q eq_refl eq_refl) as (m & Hm & _ & Hp & _).
  exists m. split; assumption.
Defined.

(** C7.  The naive model registers two free variables, [mu] and [sigma],
    both scalars, used as the location and the scale of the response; its
    linear predictor is the variable [mu], so under any draw every row of
    the response has the same location. *)
Theorem basic_model_two_parameters (d : dataset) :
  exists m score,
    basic_model d = Ok m /\
    map rv_name (free_RVs m) = ["mu"; "sigma"] /\
    map rv_shape (free_RVs m) = [[]; []] /\
    n_parameters m = 2 /\
    find_rv "score" m = Some score /\
    rv_dist score = Normal (RV "mu") (RV "sigma") /\
    rv_observed score = Some (y d) /\
    linear_predictor m = Ok (RV "mu") /\
    forall dr v,
      lookup "mu" dr = Some (Scalar v) ->
      predictor_rows m dr = Ok (repeat v (length (y d))).
Proof.
  eexists. eexists. split; [apply basic_model_eq|].
  repeat (split; [reflexivity|]).
  intros dr v Hv. unfold predictor_rows. cbn. now rewrite Hv.
Qed.

(** C3.  The prior of [sigma] is [Uniform(lower=0, upper=50)] in the naive
    model and [HalfNormal(sigma=25)] in the simple regression; in all three
    cells its support is bounded below by a non-negative number. *)
Theorem scale_priors (t : DataFrame cell) (d : dataset) :
  load t = Ok d ->
  (exists m,
      basic_model d = Ok m /\
      prior "sigma" m = Some (Uniform (Const 0) (Const 50)) /\
      nonneg_support (Uniform (Const 0) (Const 50))) /\
  (forall xs,
      getitem "siblings" (X d) = Ok xs ->
      exists m,
        simple_model d = Ok m /\
        prior "sigma" m = Some (HalfNormal (Const 25)) /\
        nonneg_support (HalfNormal (Const 25))) /\
  (exists m s,
      multi_model d = Ok m /\
      prior "sigma" m = Some s /\
      nonneg_support s).
Proof.
  intros Hload.
  assert (H0 : (0 <= 0)%Q) by apply Qle_refl.
  split; [|split].
  - eexists. split; [apply basic_model_eq|].
    split; [reflexivity|]. exists 0%Q. split; [reflexivity | exact H0].
  - intros xs Hx.
    eexists. split; [apply (simple_model_loaded t d xs Hload Hx)|].
    split; [reflexivity|]. exists 0%Q. split; [reflexivity | exact H0].
  - eexists. eexists. split; [apply (multi_model_eq t d Hload)|].
    split; [reflexivity|]. exists 0%Q. split; [reflexivity | exact H0].
Qed.

Lemma scale_priors_witness :
  exists m,
    simple_model loaded0 = Ok m /\
    prior "sigma" m = Some (HalfNormal (Const 25)).
Proof.
  destruct (scale_priors test_scores0 loaded0 eq_refl) as (_ & Hs & _).
  destruct (Hs [2; 3]%Q eq_refl) as (m & Hm & Hp & _).
  exists m. split; assumption.
Defined.

(** C4.  The naive model's location [mu] has prior [Normal(100, 20)]; the
    intercept [alpha] of both regression cells has prior [Normal(100, 50)];
    the slope prior is [Normal(0, 10)], one scalar in the simple model and
    one entry per predictor column in the multi-predictor model, with
    constant parameters that refer to no other random variable. *)
Theorem location_and_slope_priors (t : DataFrame cell) (d : dataset) :
  load t = Ok d ->
  (exists m,
      basic_model d = Ok m /\
      prior "mu" m = Some (Normal (Const 100) (Const 20))) /\
  (forall xs,
      getitem "siblings" (X d) = Ok xs ->
      exists m beta,
        simple_model d = Ok m /\
        prior "alpha" m = Some (Normal (Const 100) (Const 50)) /\
        find_rv "beta" m = Some beta /\
        prior "beta" m = Some (Normal (Const 0) (Const 10)) /\
        rv_shape beta = [] /\
        dist_parents (rv_dist beta) = []) /\
  (exists m beta,
      multi_model d = Ok m /\
      prior "alpha" m = Some (Normal (Const 100) (Const 50)) /\
      find_rv "beta" m = Some beta /\
      prior "beta" m = Some (Normal (Const 0) (Const 10)) /\
      rv_shape beta = [D d] /\
      dist_parents (rv_dist beta) = []).
Proof.
  intros Hload. split; [|split].
  - eexists. split; [apply basic_model_eq | reflexivity].
  - intros xs Hx. eexists. eexists.
    split; [apply (simple_model_loaded t d xs Hload Hx)|].
    repeat (split; [reflexivity|]). reflexivity.
  - eexists. eexists. split; [apply (multi_model_eq t d Hload)|].
    repeat (split; [reflexivity|]). reflexivity.
Qed.

Lemma location_and_slope_priors_witness :
  exists m beta,
    multi_model loaded0 = Ok m /\
    find_rv "beta" m = Some beta /\
    prior "beta" m = Some (Normal (Const 0) (Const 10)) /\
    rv_shape beta = [2].
Proof.
  destruct (location_and_slope_priors test_scores0 loaded0 eq_refl)
    as (_ & _ & m & beta & Hm & _ & Hb & Hp & Hs & _).
  exists m, beta. repeat split; assumption.
Defined.

(** C9.  The multi-predictor cell gives [sigma] the prior
    [Uniform(lower=0, upper=20)]: not the naive model's
    [Uniform(0, 50)], not the simple model's [HalfNormal(25)], and not the
    [HalfNormal(25)] of the markdown cell that describes the model. *)
Theorem multi_sigma_prior (t : DataFrame cell) (d : dataset) :
  load t = Ok d ->
  exists m,
    multi_model d = Ok m /\
    prior "sigma" m = Some (Uniform (Const 0) (Const 20)) /\
    (forall mb, basic_model d = Ok mb ->
                prior "sigma" mb = Some (Uniform (Const 0) (Const 50)) /\
                prior "sigma" m <> prior "sigma" mb) /\
    (forall ms, simple_model d = Ok ms ->
                prior "sigma" ms = Some (HalfNormal (Const 25)) /\
                prior "sigma" m <> prior "sigma" ms) /\
    documented "sigma" = Some (HalfNormal (Const 25)) /\
    prior "sigma" m <> documented "sigma".
Proof.
  intros Hload.
  eexists. split; [apply (multi_model_eq t d Hload)|].
  split; [reflexivity|].
  split; [|split; [|split; [reflexivity | discriminate]]].
  - intros mb Hb. rewrite basic_model_eq in Hb. injection Hb as <-.
    split; [reflexivity | discriminate].
  - intros ms Hs. destruct (simple_model_inv d ms Hs) as [xs Hx].
    rewrite (simple_model_loaded t d xs Hload Hx) in Hs. injection Hs as <-.
    split; [reflexivity | discriminate].
Qed.

Lemma multi_sigma_prior_witness :
  exists m,
    multi_model loaded0 = Ok m /\
    prior "sigma" m = Some (Uniform (Const 0) (Const 20)) /\
    prior "sigma" m <> documented "sigma".
Proof.
  destruct (multi_sigma_prior test_scores0 loaded0 eq_refl)
    as (m & Hm & Hp & _ & _ & _ & Hd).
  exists m. repeat split; assumption.
Defined.




(** C10.  The notebook's own [coords] bind the dimension [predictors] to
    the column labels of [X]: for every loaded table the multi-predictor
    cell returns a model whose slope vector has shape [(D,)] and whose
    labels are the predictor columns in order, and it never raises a
    shape error. *)
Theorem multi_model_dims_by_construction (t : DataFrame cell) (d : dataset) :
  load t = Ok d ->
  exists m beta,
    multi_model d = Ok m /\
    lookup "predictors" (model_coords m) = Some (columns (X d)) /\
    find_rv "beta" m = Some beta /\
    rv_dims beta = Some "predictors" /\
    rv_shape beta = [D d] /\
    length (columns (X d)) = D d /\
    (forall j, nth_error (columns (X d)) j =
               match lookup "predictors" (model_coords m) with
               | Some labels => nth_error labels j
               | None => None
               end) /\
    forall s1 s2, multi_model d <> Raise (ShapeError s1 s2).
Proof.
  intros Hload.
  destruct (load_consistent t d Hload) as (_ & _ & HD).
  pose proof (multi_model_eq t d Hload) as Hm.
  eexists. eexists. split; [exact Hm|].
  repeat (split; [reflexivity|]).
  split; [congruence|]. split; [reflexivity|].
  intros s1 s2. rewrite Hm. discriminate.
Qed.

Lemma multi_model_dims_by_construction_witness :
  exists m beta,
    multi_model loaded5 = Ok m /\
    find_rv "beta" m = Some beta /\
    rv_shape beta = [5].
Proof.
  destruct (multi_model_dims_by_construction five_predictors loaded5 eq_refl)
    as (m & beta & Hm & _ & Hb & _ & Hs & _).
  exists m, beta. repeat split; assumption.
Defined.

(** * Properties of prior-predictive simulation *)

Section PriorPredictive.

Variable E : sampler.

Lemma nth_repeat_lt (a d0 : Q) (n i : nat) :
  i < n -> nth i (repeat a n) d0 = a.
Proof.
  revert i. induction n as [|n IH]; intros [|i] H; simpl; try lia.
  - reflexivity.
  - apply IH. lia.
Qed.

Lemma score_parameters (a s : Q) (n : nat) :
  map (fun i => [nth i (repeat a n) 0%Q; nth i (repeat s n) 0%Q]) (seq 0 n) =
  repeat [a; s] n.
Proof.
  rewrite (map_ext_in _ (fun _ => [a; s])).
  - generalize 0. induction n as [|n IH]; intros k; simpl;
      [reflexivity | now rewrite IH].
  - intros i Hi. apply in_seq in Hi.
    rewrite !nth_repeat_lt by lia. reflexivity.
Qed.

Lemma variates_normals (mu sigma : tensor) (a s : Q) (n : nat) (g : rng E) :
  variates E (Normal mu sigma) (repeat [a; s] n) g = Ok (normals E a s n g).
Proof.
  revert g. induction n as [|n IH]; intros g; simpl; [reflexivity|].
  destruct (normal E a s g) as [q g1]. simpl. rewrite IH.
  destruct (normals E a s n g1) as [qs g2]. reflexivity.
Qed.

Lemma normals_length (a s : Q) (n : nat) (g : rng E) :
  length (fst (normals E a s n g)) = n.
Proof.
  revert g. induction n as [|n IH]; intros g; simpl; [reflexivity|].
  destruct (normal E a s g) as [q g1]. specialize (IH g1).
  destruct (normals E a s n g1) as [qs g2]. simpl in *. now rewrite IH.
Qed.

Lemma naive_draws_shape (k n : nat) (g : rng E) :
  length (fst (naive_draws E k n g)) = k /\
  Forall (fun x => length (score_drawn x) = n) (fst (naive_draws E k n g)).
Proof.
  revert g. induction k as [|k IH]; intros g; simpl.
  - split; [reflexivity | constructor].
  - unfold naive_draw.
    destruct (normal E 100 20 g) as [a g1].
    destruct (uniform E 0 50 g1) as [s g2].
    pose proof (normals_length a s n g2) as Hn.
    destruct (normals E a s n g2) as [v g3].
    destruct (IH g3) as [Hlen HF].
    destruct (naive_draws E k n g3) as [xs g4]. simpl in *.
    split; [now rewrite Hlen | constructor; assumption].
Qed.

Lemma basic_draw_eq (ys : list Q) (g : rng E) :
  sample_rvs E (basic_vars ys) [] g =
  Ok (draw_of (fst (naive_draw E (length ys) g)),
      snd (naive_draw E (length ys) g)).
Proof.
  unfold basic_vars, naive_draw. cbn.
  destruct (normal E 100 20 g) as [a g1]. cbn.
  destruct (uniform E 0 50 g1) as [s g2]. cbn.
  rewrite score_parameters, variates_normals.
  destruct (normals E a s (length ys) g2) as [v g3]. reflexivity.
Qed.

Lemma sample_draws_eq (cs : list (string * list string)) (ys : list Q)
    (k : nat) (g : rng E) :
  sample_draws E k {| model_coords := cs; named_vars := basic_vars ys |} g =
  Ok (map draw_of (fst (naive_draws E k (length ys) g)),
      snd (naive_draws E k (length ys) g)).
Proof.
  revert g. induction k as [|k IH]; intros g; [reflexivity|].
  cbn [sample_draws naive_draws named_vars]. rewrite basic_draw_eq.
  destruct (naive_draw E (length ys) g) as [x g1]. cbn [rbind fst snd].
  rewrite IH.
  destruct (naive_draws E k (length ys) g1) as [xs g2]. reflexivity.
Qed.

Lemma basic_draw_data_free (ys ys' : list Q) (g : rng E) :
  length ys' = length ys ->
  sample_rvs E (basic_vars ys') [] g = sample_rvs E (basic_vars ys) [] g.
Proof. intros H. unfold basic_vars. cbn. now rewrite H. Qed.

Lemma sample_draws_ext (m m' : Model) :
  (forall g, sample_rvs E (named_vars m') [] g =
             sample_rvs E (named_vars m) [] g) ->
  forall k g, sample_draws E k m' g = sample_draws E k m g.
Proof.
  intros H k. induction k as [|k IH]; intros g; simpl; [reflexivity|].
  rewrite H. destruct (sample_rvs E (named_vars m) [] g) as [[dr g1]|e];
    simpl; [|reflexivity].
  now rewrite IH.
Qed.

Lemma basic_is_observed (ys ys' : list Q) (x : string) :
  is_observed {| model_coords := []; named_vars := basic_vars ys' |} x =
  is_observed {| model_coords := []; named_vars := basic_vars ys |} x.
Proof.
  unfold is_observed, find_rv, basic_vars. cbn -[String.eqb].
  destruct (String.eqb "mu" x); [reflexivity|].
  destruct (String.eqb "sigma" x); [reflexivity|].
  destruct (String.eqb "score" x); reflexivity.
Qed.

Lemma prior_pred_data_free (d d' : dataset) (g : rng E) :
  length (y d') = length (y d) ->
  prior_pred E d' g = prior_pred E d g.
Proof.
  intros H. unfold prior_pred. rewrite !basic_model_eq. cbn [rbind].
  fold (basic_vars (y d')). fold (basic_vars (y d)).
  unfold sample_prior_predictive.
  rewrite (sample_draws_ext
             {| model_coords := []; named_vars := basic_vars (y d) |}
             {| model_coords := []; named_vars := basic_vars (y d') |}).
  2: { intros g0. now apply basic_draw_data_free. }
  destruct (sample_draws E 500 _ g) as [[drs g1]|e]; [|reflexivity].
  cbn [rbind]. do 3 f_equal.
  - apply map_ext. intros dr. apply filter_ext. intros b.
    now rewrite (basic_is_observed (y d) (y d')).
  - apply map_ext. intros dr. apply filter_ext. intros b.
    now rewrite (basic_is_observed (y d) (y d')).
Qed.

(** C8.  The prior-predictive cell asks for 500 samples of the naive
    model: it returns, with 500 draws in the prior-predictive group (and
    500 in the prior group), each holding one simulated response vector
    with an entry per observed row.  The values are those of the naive
    cell's generative procedure run 500 times on the engine's generator:
    [mu] from [Normal(100, 20)], [sigma] from [Uniform(0, 50)], each
    response entry from [Normal(mu, sigma)].  The result is the same for
    any response data of the same length, so nothing is conditioned on. *)
Theorem prior_pred_count (d : dataset) (g : rng E) :
  exists idata g' draws,
    prior_pred E d g = Ok (idata, g') /\
    length (prior_predictive idata) = 500 /\
    length (prior_group idata) = 500 /\
    Forall (fun dr => exists v, dr = [("score", Vector v)] /\
                                length v = length (y d))
           (prior_predictive idata) /\
    (forall d', length (y d') = length (y d) ->
                prior_pred E d' g = Ok (idata, g')) /\
    naive_draws E 500 (length (y d)) g = (draws, g') /\
    prior_group idata =
      map (fun x => [("mu", Scalar (mu_drawn x));
                     ("sigma", Scalar (sigma_drawn x))]) draws /\
    prior_predictive idata =
      map (fun x => [("score", Vector (score_drawn x))]) draws.
Proof.
  destruct (naive_draws_shape 500 (length (y d)) g) as [Hlen HF].
  destruct (naive_draws E 500 (length (y d)) g) as [draws g'] eqn:Hrun.
  cbn [fst] in Hlen, HF.
  assert (Hpp : prior_pred E d g =
                Ok ({| prior_group :=
                         map (fun x => [("mu", Scalar (mu_drawn x));
                                        ("sigma", Scalar (sigma_drawn x))])
                             draws;
                       prior_predictive :=
                         map (fun x => [("score", Vector (score_drawn x))])
                             draws |}, g')).
  { unfold prior_pred. rewrite basic_model_eq. cbn [rbind].
    fold (basic_vars (y d)). unfold sample_prior_predictive.
    rewrite sample_draws_eq, Hrun. cbn [rbind fst snd].
    rewrite !map_map. reflexivity. }
  eexists. exists g', draws. split; [exact Hpp|].
  cbn [prior_predictive prior_group]. rewrite !length_map.
  split; [exact Hlen|]. split; [exact Hlen|]. split.
  - rewrite Forall_map. revert HF. apply Forall_impl.
    intros x Hx. exists (score_drawn x). split; [reflexivity | exact Hx].
  - split.
    + intros d' Hd'. rewrite (prior_pred_data_free d d' g Hd'). exact Hpp.
    + repeat split; reflexivity.
Qed.

End PriorPredictive.

(** * Runs on the small tables *)

Example load_test_scores0 : load test_scores0 = Ok loaded0.
Proof. reflexivity. Qed.

Example simple_rows0 :
  (m <- simple_model loaded0 ;; predictor_rows m dr0) = Ok [94; 91]%Q.
Proof. reflexivity. Qed.

Example multi_rows0 :
  (m <- multi_model loaded0 ;; predictor_rows m dr1) = Ok [188#2; 183#2]%Q.
Proof. reflexivity. Qed.

Example multi_parameters0 :
  (m <- multi_model loaded0 ;; Ok (n_parameters m)) = Ok 4.
Proof. reflexivity. Qed.

Example prior_pred_counter :
  (m <- basic_model loaded0 ;;
   '(idata, _) <- sample_prior_predictive counter 2 m 0%Z ;;
   Ok (prior_predictive idata)) =
  Ok [[("score", Vector [300#2; 350#2]%Q)];
      [("score", Vector [660#2; 710#2]%Q)]].
Proof. reflexivity. Qed.

(** * Further properties of the loading cell *)

Lemma get_loc_nth (name : string) (cols : list string) (i : nat)
    (d0 : string) :
  get_loc name cols = Some i -> nth i cols d0 = name.
Proof.
  revert i. induction cols as [|c cols IH]; simpl; intros i H; [discriminate|].
  destruct (String.eqb_spec c name) as [->|Hne].
  - now injection H as <-.
  - destruct (get_loc name cols) as [j|]; [|discriminate].
    injection H as <-. now apply IH.
Qed.

Lemma In_delete {A} (i : nat) (l : list A) (x : A) :
  In x (delete i l) -> In x l.
Proof.
  revert i. induction l as [|a l IH]; intros [|i]; simpl; try tauto.
  intros [H|H]; [now left | right; now apply (IH i)].
Qed.

Lemma NoDup_delete {A} (i : nat) (l : list A) :
  NoDup l -> NoDup (delete i l).
Proof.
  intros H. revert i. induction H as [|a l Ha Hl IH]; intros [|i].
  - constructor.
  - constructor.
  - exact Hl.
  - change (NoDup (a :: delete i l)). constructor; [|apply IH].
    intros Hin. apply Ha. now apply (In_delete i).
Qed.

Lemma get_loc_delete_notin (name : string) (cols : list string) (i : nat) :
  NoDup cols -> get_loc name cols = Some i -> ~ In name (delete i cols).
Proof.
  intros Hnd. revert i. induction Hnd as [|c cols Hc _ IH]; simpl;
    intros i H; [discriminate|].
  destruct (String.eqb_spec c name) as [->|Hne].
  - injection H as <-. exact Hc.
  - destruct (get_loc name cols) as [j|]; [|discriminate].
    injection H as <-. intros [E|Hin]; [contradiction|].
    now apply (IH j).
Qed.

Lemma insert_at_delete {A} (i : nat) (l : list A) (d0 : A) :
  i < length l -> insert_at i (nth i l d0) (delete i l) = l.
Proof.
  revert i. induction l as [|a l IH]; intros [|i] H; simpl in H; try lia.
  - reflexivity.
  - change (a :: insert_at i (nth i l d0) (delete i l) = a :: l).
    f_equal. apply IH. lia.
Qed.

Lemma length_filter_le {A} (f : A -> bool) (l : list A) :
  length (filter f l) <= length l /\
  (length (filter f l) = length l <-> Forall (fun a => f a = true) l).
Proof.
  induction l as [|a l [IHle IHeq]]; simpl.
  - split; [lia | split; [constructor | reflexivity]].
  - destruct (f a) eqn:E; simpl.
    + split; [lia|]. split.
      * intros H. constructor; [exact E | apply IHeq; lia].
      * intros H. inversion H; subst. f_equal. now apply IHeq.
    + split; [lia|]. split.
      * intros H. lia.
      * intros H. inversion H; subst. congruence.
Qed.

Lemma get_loc_shifted (s name : string) (cols : list string) (i j : nat) :
  name <> s ->
  get_loc s cols = Some i ->
  get_loc name cols = Some j ->
  i <> j /\ get_loc name (delete i cols) = Some (shifted i j).
Proof.
  intros Hne. revert i j. induction cols as [|c cols IH]; simpl;
    intros i j Hi Hj; [discriminate|].
  destruct (String.eqb_spec c s) as [->|Hcs].
  - injection Hi as <-.
    destruct (String.eqb_spec s name) as [E|_]; [congruence|].
    destruct (get_loc name cols) as [j0|] eqn:Ej; [|discriminate].
    injection Hj as <-. split; [lia|]. exact Ej.
  - destruct (get_loc s cols) as [i0|] eqn:Ei; [|discriminate].
    injection Hi as <-.
    change (delete (S i0) (c :: cols)) with (c :: delete i0 cols). simpl.
    destruct (String.eqb_spec c name) as [->|Hcn].
    + injection Hj as <-. split; [lia | reflexivity].
    + destruct (get_loc name cols) as [j0|] eqn:Ej; [|discriminate].
      injection Hj as <-.
      destruct (IH i0 j0 eq_refl eq_refl) as [Hij ->].
      split; [lia|]. cbn [option_map]. f_equal. unfold shifted.
      change (S j0 <? S i0) with (j0 <? i0).
      destruct (Nat.ltb_spec j0 i0) as [Hlt|Hge]; [reflexivity|].
      destruct j0; [lia | reflexivity].
Qed.

Lemma nth_delete_shifted {A} (i j : nat) (r : list A) (d0 : A) :
  i <> j -> nth (shifted i j) (delete i r) d0 = nth j r d0.
Proof.
  revert i j. induction r as [|a r IH]; intros i j Hij.
  - assert (E : delete i (@nil A) = []) by (destruct i; reflexivity).
    rewrite E. destruct (shifted i j), j; reflexivity.
  - destruct i as [|i].
    + destruct j as [|j]; [lia|]. reflexivity.
    + change (delete (S i) (a :: r)) with (a :: delete i r).
      destruct j as [|j]; [reflexivity|].
      assert (Hij' : i <> j) by lia.
      specialize (IH i j Hij'). unfold shifted in *.
      change (S j <? S i) with (j <? i).
      destruct (j <? i) eqn:E; simpl.
      * exact IH.
      * apply Nat.ltb_ge in E. destruct j as [|j]; [lia|]. exact IH.
Qed.

Lemma load_rectangular (t : DataFrame cell) (d : dataset) :
  rectangular t -> load t = Ok d ->
  exists i,
    get_loc "score" (columns t) = Some i /\
    Forall (fun r => i < length r) (rows (astype_float (dropna t))) /\
    rectangular (X d).
Proof.
  intros Hrect Hload.
  destruct (load_inv t d Hload) as (i & Hi & _ & HX & _ & _).
  pose proof (get_loc_lt _ _ _ Hi) as Hlt.
  pose proof (dropna_rows_width _ _ Hrect) as Hw.
  exists i. split; [exact Hi|]. split.
  - simpl. rewrite Forall_map. revert Hw. apply Forall_impl.
    intros r Hr. rewrite length_map. lia.
  - unfold rectangular. rewrite HX. simpl. rewrite !Forall_map.
    revert Hw. apply Forall_impl. intros r Hr.
    assert (Hi' : i < length (map to_float r)) by (rewrite length_map; lia).
    pose proof (length_delete i (map to_float r) Hi') as H1.
    pose proof (length_delete i (columns t) Hlt) as H2.
    rewrite length_map in H1. lia.
Qed.

Lemma rows_round_trip (i : nat) (rs : list (list Q)) :
  Forall (fun r => i < length r) rs ->
  map (fun p => insert_at i (fst p) (snd p))
      (combine (map (fun r => nth i r 0%Q) rs) (map (delete i) rs)) = rs.
Proof.
  induction 1 as [|r rs Hr _ IH]; simpl; [reflexivity|].
  rewrite IH. f_equal. now apply insert_at_delete.
Qed.

(** X1.  With distinct column labels, the response is no longer among the
    predictors after loading: [X] has no column [score], asking for it
    raises [KeyError], and the remaining labels are still distinct. *)
Theorem load_response_not_predictor (t : DataFrame cell) (d : dataset) :
  NoDup (columns t) ->
  load t = Ok d ->
  ~ In "score" (columns (X d)) /\
  getitem "score" (X d) = Raise (KeyError "score") /\
  pop "score" (X d) = Raise (KeyError "score") /\
  NoDup (columns (X d)).
Proof.
  intros Hnd Hload.
  destruct (load_inv t d Hload) as (i & Hi & _ & HX & _ & _).
  assert (Hnot : ~ In "score" (columns (X d))).
  { rewrite HX. simpl. now apply get_loc_delete_notin. }
  assert (Hloc : get_loc "score" (columns (X d)) = None).
  { destruct (get_loc "score" (columns (X d))) as [j|] eqn:E; [|reflexivity].
    exfalso. apply Hnot. apply get_loc_In. eauto. }
  split; [exact Hnot|].
  split; [unfold getitem; now rewrite Hloc|].
  split; [unfold pop; now rewrite Hloc|].
  rewrite HX. simpl. now apply NoDup_delete.
Qed.

Lemma load_response_not_predictor_witness :
  getitem "score" (X loaded0) = Raise (KeyError "score").
Proof.
  refine (proj1 (proj2 (load_response_not_predictor test_scores0 loaded0
                          _ eq_refl))).
  repeat constructor; simpl; intuition discriminate.
Defined.

(** X2.  Loading loses nothing of the surviving rows: putting each
    response value back into its predictor row at the position of the
    [score] column gives the rows of [dropna().astype(float)] again, and
    putting the label back gives the source's columns. *)
Theorem load_pop_round_trip (t : DataFrame cell) (d : dataset) :
  rectangular t ->
  load t = Ok d ->
  exists i,
    get_loc "score" (columns t) = Some i /\
    insert_at i "score" (columns (X d)) = columns t /\
    map (fun p => insert_at i (fst p) (snd p)) (combine (y d) (rows (X d))) =
    rows (astype_float (dropna t)).
Proof.
  intros Hrect Hload.
  destruct (load_rectangular t d Hrect Hload) as (i & Hi & Hlt & _).
  destruct (load_inv t d Hload) as (i' & Hi' & Hy & HX & _ & _).
  assert (i' = i) by congruence. subst i'.
  exists i. split; [exact Hi|]. split.
  - rewrite HX. simpl.
    rewrite <- (get_loc_nth _ _ _ "" Hi) at 1.
    apply insert_at_delete. now apply (get_loc_lt "score").
  - rewrite Hy, HX. cbn [rows]. now apply rows_round_trip.
Qed.

Lemma load_pop_round_trip_witness :
  exists i,
    get_loc "score" (columns test_scores0) = Some i /\
    insert_at i "score" (columns (X loaded0)) = columns test_scores0 /\
    map (fun p => insert_at i (fst p) (snd p))
        (combine (y loaded0) (rows (X loaded0))) =
    rows (astype_float (dropna test_scores0)).
Proof.
  apply (load_pop_round_trip test_scores0 loaded0).
  - repeat constructor.
  - reflexivity.
Defined.

(** X3.  Loading never adds rows: [N] is at most the number of rows of the
    source table, and equals it exactly when no cell of the table is
    missing. *)
Theorem load_row_bound (t : DataFrame cell) (d : dataset) :
  load t = Ok d ->
  N d <= length (rows t) /\
  (N d = length (rows t) <->
   Forall (fun r => forallb present r = true) (rows t)).
Proof.
  intros Hload.
  destruct (load_inv t d Hload) as (i & _ & _ & HX & HN & _).
  assert (E : N d = length (filter (forallb present) (rows t))).
  { rewrite HN, HX. simpl. rewrite !length_map.
    rewrite <- (dropna_rows_filter (rows t)). now rewrite length_map. }
  rewrite E. apply length_filter_le.
Qed.

Lemma load_row_bound_witness :
  N loaded0 <= length (rows test_scores0) /\
  N loaded5 = length (rows five_predictors).
Proof.
  split.
  - exact (proj1 (load_row_bound test_scores0 loaded0 eq_refl)).
  - apply (proj2 (load_row_bound five_predictors loaded5 eq_refl)).
    repeat constructor.
Defined.

(** X4.  Every predictor column survives loading unchanged: for a label
    other than [score] that the source table has, [X[label]] is that
    column of the surviving rows, converted to floats and in the same
    order. *)
Theorem load_predictor_column (t : DataFrame cell) (d : dataset)
    (label : string) :
  load t = Ok d ->
  label <> "score" ->
  In label (columns t) ->
  exists j,
    get_loc label (columns t) = Some j /\
    getitem label (X d) =
    Ok (map (fun r => nth j r 0%Q) (rows (astype_float (dropna t)))).
Proof.
  intros Hload Hne Hin.
  destruct (load_inv t d Hload) as (i & Hi & _ & HX & _ & _).
  apply get_loc_In in Hin. destruct Hin as [j Hj].
  destruct (get_loc_shifted "score" label (columns t) i j Hne Hi Hj)
    as [Hij Hloc].
  exists j. split; [exact Hj|].
  unfold getitem. rewrite HX. cbn [columns rows]. rewrite Hloc.
  f_equal. rewrite map_map. apply map_ext.
  intros r. now apply nth_delete_shifted.
Qed.

Lemma load_predictor_column_witness :
  exists j,
    get_loc "siblings" (columns test_scores0) = Some j /\
    getitem "siblings" (X loaded0) =
    Ok (map (fun r => nth j r 0%Q)
            (rows (astype_float (dropna test_scores0)))).
Proof.
  apply (load_predictor_column test_scores0 loaded0 "siblings" eq_refl).
  - discriminate.
  - simpl. tauto.
Defined.

(** * Further properties of the model cells *)

Lemma simple_model_raise (d : dataset) (e : error) :
  getitem "siblings" (X d) = Raise e -> simple_model d = Raise e.
Proof. intros H. unfold simple_model. run_block. now rewrite H. Qed.

Lemma getitem_In (label : string) (df : DataFrame Q) :
  (In label (columns df) -> exists xs, getitem label df = Ok xs) /\
  (~ In label (columns df) -> getitem label df = Raise (KeyError label)).
Proof.
  unfold getitem. split; intros H.
  - apply get_loc_In in H. destruct H as [i ->]. eauto.
  - destruct (get_loc label (columns df)) as [i|] eqn:E; [|reflexivity].
    exfalso. apply H. apply get_loc_In. eauto.
Qed.

Lemma predictor_rows_simple (t : DataFrame cell) (d : dataset)
    (xs : list Q) (dr : draw) (a b : Q) :
  load t = Ok d ->
  getitem "siblings" (X d) = Ok xs ->
  lookup "alpha" dr = Some (Scalar a) ->
  lookup "beta" dr = Some (Scalar b) ->
  exists m,
    simple_model d = Ok m /\
    predictor_rows m dr = Ok (map (fun x => a + b * x)%Q xs).
Proof.
  intros Hload Hx Ha Hb.
  destruct (load_consistent t d Hload) as (Hy & _ & _).
  pose proof (getitem_length _ _ _ Hx) as Hn.
  eexists. split; [apply (simple_model_loaded t d xs Hload Hx)|].
  unfold predictor_rows. cbn -[eval broadcast_to].
  rewrite (eval_simple_mu dr a b xs Ha Hb). cbn -[broadcast_to].
  apply broadcast_to_length. rewrite length_map. congruence.
Qed.

Lemma predictor_rows_multi (t : DataFrame cell) (d : dataset)
    (dr : draw) (a : Q) (b : list Q) :
  load t = Ok d ->
  lookup "alpha" dr = Some (Scalar a) ->
  lookup "beta" dr = Some (Vector b) ->
  length b = D d ->
  exists m,
    multi_model d = Ok m /\
    predictor_rows m dr = Ok (map (fun r => a + inner r b)%Q (rows (X d))).
Proof.
  intros Hload Ha Hb Hk.
  destruct (load_consistent t d Hload) as (Hy & _ & HD).
  eexists. split; [apply (multi_model_eq t d Hload)|].
  unfold predictor_rows, values, shape. cbn -[eval broadcast_to].
  rewrite (eval_multi_mu dr a b _ _ _ Ha Hb) by congruence.
  cbn -[broadcast_to].
  apply broadcast_to_length. rewrite length_map. congruence.
Qed.

(** X5.  The simple regression cell reads the column [siblings] of [X]:
    on a loaded table without that column it raises [KeyError] on
    [siblings], and on every loaded table with it the cell returns a
    model. *)
Theorem simple_model_needs_siblings (t : DataFrame cell) (d : dataset) :
  load t = Ok d ->
  (~ In "siblings" (columns (X d)) ->
   simple_model d = Raise (KeyError "siblings")) /\
  (In "siblings" (columns (X d)) -> exists m, simple_model d = Ok m) /\
  (forall m, simple_model d = Ok m -> In "siblings" (columns (X d))).
Proof.
  intros Hload.
  destruct (getitem_In "siblings" (X d)) as [Hin Hout].
  assert (Hbad : ~ In "siblings" (columns (X d)) ->
                 simple_model d = Raise (KeyError "siblings")).
  { intros H. apply simple_model_raise. now apply Hout. }
  split; [exact Hbad|]. split.
  - intros H. destruct (Hin H) as [xs Hx].
    eexists. apply (simple_model_loaded t d xs Hload Hx).
  - intros m Hm.
    destruct (in_dec string_dec "siblings" (columns (X d))) as [H|H];
      [exact H|].
    rewrite (Hbad H) in Hm. discriminate.
Qed.

Lemma simple_model_needs_siblings_witness :
  simple_model loaded_no_siblings = Raise (KeyError "siblings") /\
  exists m, simple_model loaded0 = Ok m.
Proof.
  split.
  - apply (proj1 (simple_model_needs_siblings no_siblings loaded_no_siblings
                    eq_refl)).
    simpl. intuition discriminate.
  - apply (proj1 (proj2 (simple_model_needs_siblings test_scores0 loaded0
                           eq_refl))).
    simpl. tauto.
Defined.

(** X6.  In each of the three cells the likelihood of [score] refers to
    exactly the free variables of the model, in their order of
    registration: no prior is left unused and no reference is left
    unregistered. *)
Theorem likelihood_parents (t : DataFrame cell) (d : dataset) :
  load t = Ok d ->
  (exists m score,
      basic_model d = Ok m /\ find_rv "score" m = Some score /\
      dist_parents (rv_dist score) = map rv_name (free_RVs m) /\
      map rv_name (free_RVs m) = ["mu"; "sigma"]) /\
  (forall xs,
      getitem "siblings" (X d) = Ok xs ->
      exists m score,
        simple_model d = Ok m /\ find_rv "score" m = Some score /\
        dist_parents (rv_dist score) = map rv_name (free_RVs m) /\
        map rv_name (free_RVs m) = ["alpha"; "beta"; "sigma"]) /\
  (exists m score,
      multi_model d = Ok m /\ find_rv "score" m = Some score /\
      dist_parents (rv_dist score) = map rv_name (free_RVs m) /\
      map rv_name (free_RVs m) = ["alpha"; "beta"; "sigma"]).
Proof.
  intros Hload. split; [|split].
  - eexists. eexists. split; [apply basic_model_eq|].
    repeat split; reflexivity.
  - intros xs Hx. eexists. eexists.
    split; [apply (simple_model_loaded t d xs Hload Hx)|].
    repeat split; reflexivity.
  - eexists. eexists. split; [apply (multi_model_eq t d Hload)|].
    repeat split; reflexivity.
Qed.

Lemma likelihood_parents_witness :
  exists m score,
    multi_model loaded0 = Ok m /\ find_rv "score" m = Some score /\
    dist_parents (rv_dist score) = ["alpha"; "beta"; "sigma"].
Proof.
  destruct (likelihood_parents test_scores0 loaded0 eq_refl)
    as (_ & _ & m & score & Hm & Hs & Hp & Hn).
  exists m, score. split; [exact Hm|]. split; [exact Hs|]. congruence.
Defined.

(** X7.  The simple regression cell implements the priors of the markdown
    cell above it: every free variable has the documented distribution.
    The multi-predictor cell does so for [alpha] and [beta]. *)
Theorem priors_as_documented (t : DataFrame cell) (d : dataset) :
  load t = Ok d ->
  (forall xs,
      getitem "siblings" (X d) = Ok xs ->
      exists m,
        simple_model d = Ok m /\
        Forall (fun r => documented (rv_name r) = Some (rv_dist r))
               (free_RVs m)) /\
  (exists m,
      multi_model d = Ok m /\
      prior "alpha" m = documented "alpha" /\
      prior "beta" m = documented "beta").
Proof.
  intros Hload. split.
  - intros xs Hx. eexists.
    split; [apply (simple_model_loaded t d xs Hload Hx)|].
    repeat constructor.
  - eexists. split; [apply (multi_model_eq t d Hload)|].
    split; reflexivity.
Qed.

Lemma priors_as_documented_witness :
  exists m,
    simple_model loaded0 = Ok m /\
    Forall (fun r => documented (rv_name r) = Some (rv_dist r)) (free_RVs m).
Proof.
  destruct (priors_as_documented test_scores0 loaded0 eq_refl) as [Hs _].
  exact (Hs [2; 3]%Q eq_refl).
Defined.

Lemma single_column_rows (a b : Q) (rs : list (list Q)) :
  Forall (fun r => length r = 1) rs ->
  Forall2 Qeq
    (map (fun x => a + b * x)%Q (map (fun r => nth 0 r 0%Q) rs))
    (map (fun r => a + inner r [b])%Q rs).
Proof.
  induction 1 as [|r rs Hr _ IH]; simpl; constructor; [|exact IH].
  destruct r as [|x [|x' r]]; try discriminate.
  unfold inner, zip_with. simpl. ring.
Qed.

(** X8.  When [siblings] is the only predictor column, the multi-predictor
    cell is the simple regression: under draws with the same intercept and
    the slope [b], as a scalar in one and as the one-entry vector in the
    other, both give the same linear predictor on every row. *)
Theorem multi_reduces_to_simple (t : DataFrame cell) (d : dataset)
    (a b s : Q) :
  rectangular t ->
  load t = Ok d ->
  columns (X d) = ["siblings"] ->
  exists ms mm rs rm,
    simple_model d = Ok ms /\
    multi_model d = Ok mm /\
    predictor_rows ms
      [("alpha", Scalar a); ("beta", Scalar b); ("sigma", Scalar s)] = Ok rs /\
    predictor_rows mm
      [("alpha", Scalar a); ("beta", Vector [b]); ("sigma", Scalar s)] = Ok rm /\
    length rs = N d /\
    Forall2 Qeq rs rm.
Proof.
  intros Hrect Hload Hcols.
  destruct (load_rectangular t d Hrect Hload) as (i & _ & _ & HrX).
  destruct (load_consistent t d Hload) as (_ & HN & HD).
  assert (Hx : getitem "siblings" (X d) =
               Ok (map (fun r => nth 0 r 0%Q) (rows (X d)))).
  { unfold getitem. now rewrite Hcols. }
  destruct (predictor_rows_simple t d _
              [("alpha", Scalar a); ("beta", Scalar b); ("sigma", Scalar s)]
              a b Hload Hx eq_refl eq_refl) as (ms & Hms & Hrs).
  destruct (predictor_rows_multi t d
              [("alpha", Scalar a); ("beta", Vector [b]); ("sigma", Scalar s)]
              a [b] Hload eq_refl eq_refl) as (mm & Hmm & Hrm).
  { rewrite HD, Hcols. reflexivity. }
  exists ms, mm. eexists. eexists.
  split; [exact Hms|]. split; [exact Hmm|].
  split; [exact Hrs|]. split; [exact Hrm|].
  split; [rewrite !length_map; congruence|].
  apply single_column_rows.
  unfold rectangular in HrX. rewrite Hcols in HrX. exact HrX.
Qed.

Lemma multi_reduces_to_simple_witness :
  exists ms mm rs rm,
    simple_model loaded1 = Ok ms /\
    multi_model loaded1 = Ok mm /\
    predictor_rows ms
      [("alpha", Scalar 100); ("beta", Scalar (-3)); ("sigma", Scalar 5)]
      = Ok rs /\
    predictor_rows mm
      [("alpha", Scalar 100); ("beta", Vector [(-3)%Q]); ("sigma", Scalar 5)]
      = Ok rm /\
    length rs = N loaded1 /\
    Forall2 Qeq rs rm.
Proof.
  apply (multi_reduces_to_simple siblings_only loaded1 100 (-3) 5).
  - repeat constructor.
  - reflexivity.
  - reflexivity.
Defined.

(** X9.  The simple regression cell uses nothing of the data but the
    column [siblings] and the response: two loaded tables that agree on
    both give the same result, whatever their other predictor columns. *)
Theorem simple_model_only_siblings (t t' : DataFrame cell)
    (d d' : dataset) :
  load t = Ok d ->
  load t' = Ok d' ->
  getitem "siblings" (X d) = getitem "siblings" (X d') ->
  y d = y d' ->
  simple_model d = simple_model d'.
Proof.
  intros Hload Hload' Hx Hy.
  destruct (getitem "siblings" (X d)) as [xs|e] eqn:E.
  - rewrite (simple_model_loaded t d xs Hload E).
    rewrite (simple_model_loaded t' d' xs Hload' (eq_sym Hx)).
    now rewrite Hy.
  - rewrite (simple_model_raise d e E).
    now rewrite (simple_model_raise d' e (eq_sym Hx)).
Qed.

Lemma simple_model_only_siblings_witness :
  simple_model loaded0 = simple_model loaded2.
Proof.
  apply (simple_model_only_siblings test_scores0 test_scores2);
    reflexivity.
Defined.

(** X10.  The simple regression has three free parameters and the
    multi-predictor regression has [D + 2]: the intercept, one slope per
    predictor column and the scale. *)
Theorem parameter_counts (t : DataFrame cell) (d : dataset) :
  load t = Ok d ->
  (forall xs,
      getitem "siblings" (X d) = Ok xs ->
      exists m, simple_model d = Ok m /\ n_parameters m = 3) /\
  (exists m, multi_model d = Ok m /\ n_parameters m = D d + 2).
Proof.
  intros Hload. split.
  - intros xs Hx. eexists.
    split; [apply (simple_model_loaded t d xs Hload Hx) | reflexivity].
  - eexists. split; [apply (multi_model_eq t d Hload)|].
    unfold n_parameters. cbn. lia.
Qed.

Lemma parameter_counts_witness :
  exists m, multi_model loaded5 = Ok m /\ n_parameters m = 7.
Proof.
  exact (proj2 (parameter_counts five_predictors loaded5 eq_refl)).
Defined.

(** X11.  In both regression cells the likelihood is conditioned on the
    loaded response: the variable [score] carries [y] as its observed
    data and has one entry per row, shape [(N,)]. *)
Theorem likelihood_observes_response (t : DataFrame cell) (d : dataset) :
  load t = Ok d ->
  (forall xs,
      getitem "siblings" (X d) = Ok xs ->
      exists m score,
        simple_model d = Ok m /\ find_rv "score" m = Some score /\
        rv_observed score = Some (y d) /\ rv_shape score = [N d]) /\
  (exists m score,
      multi_model d = Ok m /\ find_rv "score" m = Some score /\
      rv_observed score = Some (y d) /\ rv_shape score = [N d]).
Proof.
  intros Hload.
  destruct (load_consistent t d Hload) as (Hy & HN & _).
  split.
  - intros xs Hx. eexists. eexists.
    split; [apply (simple_model_loaded t d xs Hload Hx)|].
    repeat (split; [reflexivity|]). cbn. congruence.
  - eexists. eexists. split; [apply (multi_model_eq t d Hload)|].
    repeat (split; [reflexivity|]). cbn. congruence.
Qed.

Lemma likelihood_observes_response_witness :
  exists m score,
    multi_model loaded0 = Ok m /\ find_rv "score" m = Some score /\
    rv_observed score = Some (y loaded0) /\ rv_shape score = [N loaded0].
Proof.
  exact (proj2 (likelihood_observes_response test_scores0 loaded0 eq_refl)).
Defined.
